(** * Circular binary search ([circ_bs.py])

    A shallow embedding of [circ_bs] and the properties of its search loop.

    Python integers are unbounded, so indices and elements are [Z]; the
    elements of the list are integers, as in the script's own lists.  A list
    read [list[i]] follows Python: an index in [[-n, n)] is accepted (a
    negative one counts from the end), any other raises [IndexError].  The
    [while] loop is run with fuel; every read and every entry into the loop
    body is logged, so that the reads and the iterations of a run can be
    talked about. *)

From Stdlib Require Import ZArith List Bool Lia Permutation.
From Stdlib Require String.
Import ListNotations.
Import String.StringSyntax.
Delimit Scope string_scope with string.
Open Scope Z_scope.

(** ** Model of the execution *)

Inductive event : Type :=
| Iter               (* the loop body is entered *)
| Read (i : Z).      (* [list[i]] is evaluated *)

Inductive outcome (A : Type) : Type :=
| Done (a : A)
| IndexError
| OutOfFuel.
Arguments Done {A} a.
Arguments IndexError {A}.
Arguments OutOfFuel {A}.

Definition M (A : Type) : Type := (list event * outcome A)%type.

Definition ret {A} (a : A) : M A := ([], Done a).

Definition bind {A B} (m : M A) (f : A -> M B) : M B :=
  match m with
  | (tr, Done a) => let (tr', r) := f a in (tr ++ tr', r)
  | (tr, IndexError) => (tr, IndexError)
  | (tr, OutOfFuel) => (tr, OutOfFuel)
  end.

Notation "x <- m ;; k" := (bind m (fun x => k))
  (at level 61, m at next level, right associativity).

Definition tick : M unit := ([Iter], Done tt).

(** Python's [list[i]]. *)
Definition getitem (list : list Z) (i : Z) : M Z :=
  let n := Z.of_nat (length list) in
  let j := if i <? 0 then i + n else i in
  if (0 <=? j) && (j <? n)
  then ([Read i], Done (nth (Z.to_nat j) list 0))
  else ([Read i], IndexError).

(** Python's short-circuit [and]. *)
Definition and_ (a b : M bool) : M bool :=
  x <- a ;; if x then b else ret false.

(** The local variables of [circ_bs] that the loop touches. *)
Record state : Type := mkState {
  lower : Z;
  upper : Z;
  pos : Z;
  found : bool
}.

Definition set_upper (s : state) (v : Z) : state :=
  mkState (lower s) v (pos s) (found s).
Definition set_lower (s : state) (v : Z) : state :=
  mkState v (upper s) (pos s) (found s).
Definition set_found (s : state) (p : Z) : state :=
  mkState (lower s) (upper s) p true.

(** The loop test [not found and lower <= upper]. *)
Definition cond (s : state) : bool :=
  negb (found s) && (lower s <=? upper s).

(** One pass through the body of the [while]. *)
Definition body (list : list Z) (target : Z) (s : state) : M state :=
  let mid := (upper s + lower s) / 2 in
  x <- getitem list mid ;;
  if x =? target then ret (set_found s mid)
  else
    c1 <- and_ (a <- getitem list (lower s) ;; ret (target >=? a))
               (b <- getitem list mid ;; ret (target <? b)) ;;
    if c1 then ret (set_upper s (mid - 1))
    else
      c2 <- and_ (a <- getitem list mid ;; ret (target >? a))
                 (b <- getitem list (upper s) ;; ret (target <=? b)) ;;
      if c2 then ret (set_lower s (mid + 1))
      else
        (* MARKER 1 *)
        a <- getitem list (lower s) ;;
        b <- getitem list mid ;;
        if a >? b (* MARKER 2 *)
        then ret (set_upper s (mid - 1))
        else ret (set_lower s (mid + 1)).

Fixpoint while (fuel : nat) (list : list Z) (target : Z) (s : state)
  : M state :=
  if cond s then
    match fuel with
    | O => ([], OutOfFuel)
    | S fuel' =>
        _ <- tick ;;
        s' <- body list target s ;;
        while fuel' list target s'
    end
  else ret s.

(** The state on entry to the loop. *)
Definition init (list : list Z) : state :=
  let size := Z.of_nat (length list) in
  let s := mkState 0 (size - 1) (-1) false in
  if size =? 0 then mkState (lower s) (upper s) (pos s) true else s.

Definition circ_bs_run (fuel : nat) (list : list Z) (target : Z) : M Z :=
  s <- while fuel list target (init list) ;;
  ret (pos s).

(** [circ_bs]: the window holds at most [len(list)] indices and loses one
    at least in each pass, so that much fuel is never used up
    (see [circ_bs_fuel]). *)
Definition circ_bs_trace (list : list Z) (target : Z) : M Z :=
  circ_bs_run (length list) list target.

Definition circ_bs (list : list Z) (target : Z) : outcome Z :=
  snd (circ_bs_trace list target).

(** The result that stands for "not found". *)
Definition absent : Z := -1.

(** What a run read, and how many times it went through the loop. *)
Definition reads (tr : list event) : list Z :=
  flat_map (fun e => match e with Read i => [i] | Iter => [] end) tr.

Definition iterations (tr : list event) : nat :=
  length (filter (fun e => match e with Iter => true | Read _ => false end) tr).

(** ** The lists of the script *)

(** [list[-200:] + list[0:800]] for a list of 1000 elements: the list cut
    at [k] with its tail moved to the front, so that
    [rotate S k [i] = S[(i + k) mod n]]. *)
Definition rotate (S : list Z) (k : nat) : list Z :=
  skipn k S ++ firstn k S.

(** [[x for x in range(lo, lo + n)]]. *)
Fixpoint range (lo : Z) (n : nat) : list Z :=
  match n with
  | O => []
  | S n' => lo :: range (lo + 1) n'
  end.

Fixpoint ascendingb (l : list Z) : bool :=
  match l with
  | a :: (b :: _) as tl => (a <=? b) && ascendingb tl
  | _ => true
  end.

Fixpoint strictly_ascendingb (l : list Z) : bool :=
  match l with
  | a :: (b :: _) as tl => (a <? b) && strictly_ascendingb tl
  | _ => true
  end.

(** [l[i]] for an index known to be in range. *)
Definition get (l : list Z) (i : Z) : Z := nth (Z.to_nat i) l 0.

(** [l] is ascending up to the cut [c] and from it, and every element from
    the cut on is below every element before it: what moving the tail of
    an ascending list to the front gives when the cut does not fall
    between two equal elements.  [c = 0] and [c = len(l)] are the plain
    ascending lists. *)
Definition cut_sorted (l : list Z) (c : Z) : Prop :=
  let n := Z.of_nat (length l) in
  0 <= c <= n /\
  (forall i j, 0 <= i <= j -> j < c -> get l i <= get l j) /\
  (forall i j, c <= i <= j -> j < n -> get l i <= get l j) /\
  (forall i j, 0 <= i < c -> c <= j < n -> get l j < get l i).

(** ** The loop without its log *)

(** What [body] leaves in the variables when its reads are in range. *)
Definition next (l : list Z) (t : Z) (s : state) : state :=
  let mid := (upper s + lower s) / 2 in
  if get l mid =? t then set_found s mid
  else if (t >=? get l (lower s)) && (t <? get l mid)
  then set_upper s (mid - 1)
  else if (t >? get l mid) && (t <=? get l (upper s))
  then set_lower s (mid + 1)
  else if get l (lower s) >? get l mid
  then set_upper s (mid - 1)
  else set_lower s (mid + 1).

Fixpoint steps (fuel : nat) (l : list Z) (t : Z) (s : state) : state :=
  if cond s then
    match fuel with
    | O => s
    | S fuel' => steps fuel' l t (next l t s)
    end
  else s.

Fixpoint nsteps (fuel : nat) (l : list Z) (t : Z) (s : state) : nat :=
  if cond s then
    match fuel with
    | O => O
    | S fuel' => S (nsteps fuel' l t (next l t s))
    end
  else O.

(** The number of indices in the window. *)
Definition width (s : state) : Z := upper s - lower s + 1.

(** The window is inside the list. *)
Definition in_list (l : list Z) (s : state) : Prop :=
  0 <= lower s /\ upper s < Z.of_nat (length l).

Definition in_range (l : list Z) (i : Z) : Prop :=
  0 <= i < Z.of_nat (length l).

(** [pos] is [-1] until the target is found, and then an index of it. *)
Definition pos_ok (l : list Z) (t : Z) (s : state) : Prop :=
  (found s = false -> pos s = -1) /\
  (pos s = -1 \/ (in_range l (pos s) /\ get l (pos s) = t)).

(** The window invariant: an index of the target is in it. *)
Definition holds_target (l : list Z) (t : Z) (s : state) : Prop :=
  exists j, lower s <= j <= upper s /\ get l j = t.

(** ** Standard binary search, for comparison *)

(** Not in [circ_bs.py]: the "normal binary search" its notes compare
    with, on the same variables and with the same entry state. *)

Definition bs_next (l : list Z) (t : Z) (s : state) : state :=
  let mid := (upper s + lower s) / 2 in
  if get l mid =? t then set_found s mid
  else if t <? get l mid then set_upper s (mid - 1)
  else set_lower s (mid + 1).

Fixpoint bs_steps (fuel : nat) (l : list Z) (t : Z) (s : state) : state :=
  if cond s then
    match fuel with
    | O => s
    | S fuel' => bs_steps fuel' l t (bs_next l t s)
    end
  else s.

(** The textbook search on an ascending list: halve the window on the
    comparison of the target with the middle element. *)
Definition binary_search (l : list Z) (t : Z) : Z :=
  pos (bs_steps (length l) l t (init l)).

(** ** The states at the head of the loop *)

Inductive loop_head (l : list Z) (t : Z) : state -> Prop :=
| head_init : loop_head l t (init l)
| head_body s tr s' :
    loop_head l t s -> cond s = true ->
    body l t s = (tr, Done s') -> loop_head l t s'.

(** ** The rest of the script: [print_list], [manage_search] and the
    commands run under [__main__] *)

(** Python's [list[start:stop]]: a bound left out is [None]; a negative
    bound counts from the end; bounds are clamped to [[0, n]], so a slice
    never raises. *)
Definition clamp (n i : Z) : Z :=
  if i <? 0 then Z.max (i + n) 0 else Z.min i n.

Definition py_slice (list : list Z) (start stop : option Z)
  : Datatypes.list Z :=
  let n := Z.of_nat (length list) in
  let lo := match start with None => 0 | Some i => clamp n i end in
  let hi := match stop with None => n | Some i => clamp n i end in
  firstn (Z.to_nat (hi - lo)) (skipn (Z.to_nat lo) list).

(** Python's [range(start, stop, step)], as the list of its values;
    [None] is the [ValueError] of a zero step. *)
Definition range_len (start stop step : Z) : Z :=
  if 0 <? step
  then (if start <? stop then (stop - start - 1) / step + 1 else 0)
  else (if stop <? start then (start - stop - 1) / (- step) + 1 else 0).

Fixpoint range_from (start step : Z) (n : nat) : list Z :=
  match n with
  | O => []
  | S n' => start :: range_from (start + step) step n'
  end.

Definition py_range (start stop step : Z) : option (list Z) :=
  if step =? 0 then None
  else Some (range_from start step (Z.to_nat (range_len start stop step))).

(** What the script can raise. *)
Inductive exception : Type :=
| ExIndexError
| ExValueError.

Inductive run (A : Type) : Type :=
| Finished (a : A)
| Raises (e : exception)
| NoFuel.
Arguments Finished {A} a.
Arguments Raises {A} e.
Arguments NoFuel {A}.

(** What [print] writes, a line at a time.  [T] is the type of the
    readings of [time()] and of their difference. *)
Inductive line (T : Type) : Type :=
| Text (s : String.string)         (* a literal, or [name] *)
| ShowList (l : list Z)            (* [print(list[...])] *)
| ShowInt (z : Z)                  (* [print(circ_bs(...))] *)
| NotFoundLine (each : Z)          (* ["{0} NOT FOUND!"] *)
| FoundLine (n : Z) (secs : T)     (* ["Found {0} values in {1} secs."] *)
| ArrowLine (each r : Z)           (* ["{0} -> {1}"] *)
| Blank.                           (* [print()] *)
Arguments Text {T} s.
Arguments ShowList {T} l.
Arguments ShowInt {T} z.
Arguments NotFoundLine {T} each.
Arguments FoundLine {T} n secs.
Arguments ArrowLine {T} each r.
Arguments Blank {T}.

(** A command of the script: the lines printed, and how it ended. *)
Definition Out (T A : Type) : Type := (list (line T) * run A)%type.

Definition oret {T A} (a : A) : Out T A := ([], Finished a).

Definition obind {T A B} (m : Out T A) (f : A -> Out T B) : Out T B :=
  match m with
  | (out, Finished a) => let (out', r) := f a in (out ++ out', r)
  | (out, Raises e) => (out, Raises e)
  | (out, NoFuel) => (out, NoFuel)
  end.

Notation "x <~ m ;; k" := (obind m (fun x => k))
  (at level 61, m at next level, right associativity).
Notation "m >>> k" := (obind m (fun _ => k))
  (at level 61, right associativity).

Definition print {T} (l : line T) : Out T unit := ([l], Finished tt).

(** A call of [circ_bs] from the script: its reads are not printed. *)
Definition call {T A} (r : outcome A) : Out T A :=
  match r with
  | Done a => ([], Finished a)
  | IndexError => ([], Raises ExIndexError)
  | OutOfFuel => ([], NoFuel)
  end.

Definition value {T A} (o : option A) : Out T A :=
  match o with
  | Some a => ([], Finished a)
  | None => ([], Raises ExValueError)
  end.

Definition print_list {T} (list : list Z) (name : String.string)
  : Out T unit :=
  print (Text name) >>>
  print (ShowList (py_slice list (Some 0) (Some 10))) >>>
  print (Text "... stuff in between ..."%string) >>>
  print (ShowList (py_slice list (Some (-10)) None)).

(** The [for each in list] of [manage_search], from [rest] on; the
    [break] ends it. *)
Fixpoint search_each {T} (list rest : list Z) : Out T unit :=
  match rest with
  | [] => oret tt
  | each :: rest' =>
      pos <~ call (circ_bs list each) ;;
      if pos =? -1
      then print (NotFoundLine each)
      else search_each list rest'
  end.

(** [start] and [end_] are the two readings of [time()], [sub] the
    subtraction of floats. *)
Definition manage_search {T} (sub : T -> T -> T) (start end_ : T)
  (list : list Z) : Out T unit :=
  print (Text "Beginning search for all values in the list..."%string) >>>
  search_each list list >>>
  print (Text "Done!"%string) >>>
  print (FoundLine (Z.of_nat (length list)) (sub end_ start)) >>>
  print Blank.

(** [list[-200:] + list[0:800]]. *)
Definition circular (list : list Z) : Datatypes.list Z :=
  py_slice list (Some (-200)) None ++ py_slice list (Some 0) (Some 800).

(** [for each in nots: print("{0} -> {1}".format(each, circ_bs(list, each)))]. *)
Fixpoint report_each {T} (list nots : list Z) : Out T unit :=
  match nots with
  | [] => oret tt
  | each :: nots' =>
      r <~ call (circ_bs list each) ;;
      print (ArrowLine each r) >>>
      report_each list nots'
  end.

(** The commands under [if __name__ == '__main__']; [t1 .. t4] are the
    readings of [time()] in the two calls of [manage_search]. *)
Definition main {T} (sub : T -> T -> T) (t1 t2 t3 t4 : T) : Out T unit :=
  list <~ value (py_range 0 1000 1) ;;
  print_list list "Normal list:"%string >>>
  manage_search sub t1 t2 list >>>
  let list := circular list in
  print_list list "Circular list:"%string >>>
  manage_search sub t3 t4 list >>>
  print (Text "Test for len 1 list..."%string) >>>
  (r <~ call (circ_bs [1] 1) ;; print (ShowInt r)) >>>
  print (Text "Test for len 0 list..."%string) >>>
  (r <~ call (circ_bs [] 1) ;; print (ShowInt r)) >>>
  print (Text "Test for values that aren't in the list..."%string) >>>
  nots <~ value (py_range (-1) (-10) (-1)) ;;
  report_each list nots.

(** The element the [for] of [manage_search] stops at, if any. *)
Definition missed (list : list Z) (each : Z) : bool :=
  match circ_bs list each with
  | Done pos => pos =? -1
  | _ => false
  end.

(** ** Reads *)

Lemma getitem_in (l : list Z) (i : Z) :
  in_range l i -> getitem l i = ([Read i], Done (get l i)).
Proof.
  unfold in_range, getitem, get. intros H.
  destruct (Z.ltb_spec i 0); [lia|].
  destruct (Z.leb_spec 0 i); [|lia].
  destruct (Z.ltb_spec i (Z.of_nat (length l))); [|lia].
  reflexivity.
Qed.

Lemma mid_bounds (lo hi : Z) :
  lo <= hi -> lo <= (hi + lo) / 2 <= hi.
Proof.
  intros H. split.
  - apply Z.div_le_lower_bound; lia.
  - apply Z.div_le_upper_bound; lia.
Qed.

Lemma cond_true (s : state) :
  cond s = true <-> found s = false /\ lower s <= upper s.
Proof.
  unfold cond. rewrite andb_true_iff, negb_true_iff, Z.leb_le. tauto.
Qed.

Lemma cond_false (s : state) :
  cond s = false <-> found s = true \/ upper s < lower s.
Proof.
  unfold cond. rewrite andb_false_iff, negb_false_iff, Z.leb_gt. tauto.
Qed.

(** In range, [body] does what [next] says, reads inside the list only
    and logs no iteration of its own. *)
Lemma body_next (l : list Z) (t : Z) (s : state) :
  in_list l s -> lower s <= upper s ->
  exists tr, body l t s = (tr, Done (next l t s)) /\
             Forall (in_range l) (reads tr) /\ iterations tr = O.
Proof.
  intros [Hl Hu] Hle.
  pose proof (mid_bounds _ _ Hle) as Hm.
  assert (Rm : in_range l ((upper s + lower s) / 2)) by (unfold in_range; lia).
  assert (Rl : in_range l (lower s)) by (unfold in_range; lia).
  assert (Ru : in_range l (upper s)) by (unfold in_range; lia).
  unfold body, next, and_.
  rewrite (getitem_in _ _ Rm), (getitem_in _ _ Rl), (getitem_in _ _ Ru).
  cbn [bind ret app].
  destruct (get l ((upper s + lower s) / 2) =? t).
  { eexists; split; [reflexivity|]. cbn. auto. }
  destruct (t >=? get l (lower s)); cbn [bind ret app andb];
    destruct (t <? get l ((upper s + lower s) / 2)); cbn [bind ret app andb];
    try (eexists; split; [reflexivity|]; cbn; now auto 10);
    destruct (t >? get l ((upper s + lower s) / 2)); cbn [bind ret app andb];
    try destruct (t <=? get l (upper s)); cbn [bind ret app andb];
    try (eexists; split; [reflexivity|]; cbn; now auto 10);
    destruct (get l (lower s) >? get l ((upper s + lower s) / 2));
    eexists; (split; [reflexivity|]); cbn; auto 20.
Qed.

(** ** One step *)

Lemma next_cases (l : list Z) (t : Z) (s : state) :
  let mid := (upper s + lower s) / 2 in
  (get l mid = t /\ next l t s = set_found s mid) \/
  (get l mid <> t /\
   (next l t s = set_upper s (mid - 1) \/ next l t s = set_lower s (mid + 1))).
Proof.
  cbv zeta. unfold next.
  destruct (Z.eqb_spec (get l ((upper s + lower s) / 2)) t) as [E|E]; [now left|].
  right. split; [exact E|].
  repeat match goal with
         | |- context [if ?b then _ else _] => destruct b
         end; auto.
Qed.

Lemma half_left (lo hi : Z) :
  lo <= hi -> ((hi + lo) / 2 - 1) - lo + 1 <= (hi - lo + 1) / 2.
Proof.
  intros H.
  replace (hi + lo) with ((hi - lo) + lo * 2) by lia.
  rewrite Z.div_add by lia.
  assert ((hi - lo) / 2 <= (hi - lo + 1) / 2)
    by (apply Z.div_le_mono; lia).
  lia.
Qed.

Lemma half_right (lo hi : Z) :
  lo <= hi -> hi - ((hi + lo) / 2 + 1) + 1 <= (hi - lo + 1) / 2.
Proof.
  intros H.
  replace (hi + lo) with ((hi - lo) + lo * 2) by lia.
  rewrite Z.div_add by lia.
  pose proof (Z.div_mod (hi - lo) 2 ltac:(lia)).
  pose proof (Z.mod_pos_bound (hi - lo) 2 ltac:(lia)).
  pose proof (Z.div_mod (hi - lo + 1) 2 ltac:(lia)).
  pose proof (Z.mod_pos_bound (hi - lo + 1) 2 ltac:(lia)).
  lia.
Qed.

(** A pass that does not find the target keeps the window inside the
    list, leaves [pos] and [found] alone and at least halves the window. *)
Lemma next_window (l : list Z) (t : Z) (s : state) :
  in_list l s -> cond s = true ->
  let s' := next l t s in
  (found s' = true /\ pos s' = (upper s + lower s) / 2 /\
   in_range l (pos s') /\ get l (pos s') = t) \/
  (found s' = false /\ pos s' = pos s /\ in_list l s' /\
   width s' <= width s / 2 /\ width s' < width s /\
   lower s <= lower s' /\ upper s' <= upper s).
Proof.
  intros [Hl Hu] Hc. apply cond_true in Hc. destruct Hc as [Hf Hle].
  pose proof (mid_bounds _ _ Hle) as Hm.
  pose proof (half_left _ _ Hle) as HL.
  pose proof (half_right _ _ Hle) as HR.
  assert (Hhalf : (upper s - lower s + 1) / 2 < upper s - lower s + 1)
    by (apply Z.div_lt_upper_bound; lia).
  cbv zeta.
  destruct (next_cases l t s) as [[E ->]|[E [-> | ->]]].
  - left. cbn. unfold in_range. repeat split; auto; lia.
  - right. unfold in_list, width. cbn. repeat split; auto; lia.
  - right. unfold in_list, width. cbn. repeat split; auto; lia.
Qed.

(** ** The loop *)

Lemma reads_app (a b : list event) : reads (a ++ b) = reads a ++ reads b.
Proof. unfold reads. apply flat_map_app. Qed.

Lemma iterations_app (a b : list event) :
  iterations (a ++ b) = (iterations a + iterations b)%nat.
Proof. unfold iterations. now rewrite filter_app, length_app. Qed.

(** With fuel for the width of the window, the logged loop ends in the
    state [steps] computes, after [nsteps] passes, having read inside the
    list only. *)
Lemma while_steps (l : list Z) (t : Z) :
  forall (fuel : nat) (s : state),
    in_list l s -> found s = true \/ width s <= Z.of_nat fuel ->
    exists tr, while fuel l t s = (tr, Done (steps fuel l t s)) /\
               Forall (in_range l) (reads tr) /\
               iterations tr = nsteps fuel l t s /\
               cond (steps fuel l t s) = false.
Proof.
  induction fuel as [|fuel IH]; intros s Hin Hw.
  - cbn. destruct (cond s) eqn:Hc.
    + apply cond_true in Hc. unfold width in Hw.
      destruct Hw; [intuition congruence|lia].
    + exists []. cbn. auto.
  - cbn [while steps nsteps]. destruct (cond s) eqn:Hc.
    2:{ exists []. cbn. auto. }
    pose proof Hc as Hc'. apply cond_true in Hc'. destruct Hc' as [Hf Hle].
    destruct Hw as [Hw|Hw]; [congruence|].
    destruct (body_next l t s Hin Hle) as (tr1 & Hb & Hr1 & Hi1).
    assert (Hnext : in_list l (next l t s) /\
                     (found (next l t s) = true \/
                      width (next l t s) <= Z.of_nat fuel)).
    { destruct (next_window l t s Hin Hc)
        as [(F & P & R & G)|(F & P & I & W & W' & _)].
      - split; [|now left].
        destruct (next_cases l t s) as [[E Hn]|[E [Hn | Hn]]];
          rewrite Hn in *; cbn in F; try congruence.
        unfold in_list in *. cbn. tauto.
      - split; [exact I|right; lia]. }
    destruct Hnext as [Hin' Hw'].
    destruct (IH _ Hin' Hw') as (tr2 & Hwh & Hr2 & Hi2 & Hc2).
    exists (Iter :: tr1 ++ tr2). repeat split.
    + unfold tick. cbn [bind]. rewrite Hb. cbn [bind]. rewrite Hwh.
      reflexivity.
    + change (Iter :: tr1 ++ tr2) with ([Iter] ++ tr1 ++ tr2).
      rewrite !reads_app. cbn. now apply Forall_app.
    + change (Iter :: tr1 ++ tr2) with ([Iter] ++ tr1 ++ tr2).
      rewrite !iterations_app. cbn. lia.
    + exact Hc2.
Qed.

Lemma init_in_list (l : list Z) : in_list l (init l).
Proof.
  unfold in_list, init. cbv zeta.
  destruct (Z.of_nat (length l) =? 0); cbn; lia.
Qed.

Lemma init_width (l : list Z) :
  found (init l) = true \/ width (init l) <= Z.of_nat (length l).
Proof.
  unfold init, width. cbv zeta.
  destruct (Z.of_nat (length l) =? 0); cbn; [now left|right; lia].
Qed.

(** The run of [circ_bs] in terms of [steps]. *)
Lemma circ_bs_trace_steps (l : list Z) (t : Z) :
  exists tr,
    circ_bs_trace l t = (tr, Done (pos (steps (length l) l t (init l)))) /\
    Forall (in_range l) (reads tr) /\
    iterations tr = nsteps (length l) l t (init l) /\
    cond (steps (length l) l t (init l)) = false.
Proof.
  destruct (while_steps l t (length l) (init l) (init_in_list l) (init_width l))
    as (tr & Hw & Hr & Hi & Hc).
  exists tr. repeat split; auto.
  unfold circ_bs_trace, circ_bs_run. rewrite Hw. cbn.
  now rewrite app_nil_r.
Qed.

Lemma circ_bs_steps (l : list Z) (t : Z) :
  circ_bs l t = Done (pos (steps (length l) l t (init l))).
Proof.
  unfold circ_bs. destruct (circ_bs_trace_steps l t) as (tr & -> & _).
  reflexivity.
Qed.

(** ** Soundness, on any list *)

Lemma next_pos_ok (l : list Z) (t : Z) (s : state) :
  in_list l s -> cond s = true -> pos_ok l t s -> pos_ok l t (next l t s).
Proof.
  intros Hin Hc [H1 H2].
  destruct (next_window l t s Hin Hc)
    as [(F & P & R & G)|(F & P & I & _)]; unfold pos_ok.
  - split; [congruence|right; auto].
  - rewrite P. apply cond_true in Hc. split; [tauto|].
    left. apply H1. tauto.
Qed.

Lemma steps_pos_ok (l : list Z) (t : Z) :
  forall (fuel : nat) (s : state),
    in_list l s -> pos_ok l t s -> pos_ok l t (steps fuel l t s).
Proof.
  induction fuel as [|fuel IH]; intros s Hin Hp; cbn [steps].
  - now destruct (cond s).
  - destruct (cond s) eqn:Hc; [|exact Hp].
    apply IH.
    + destruct (next_window l t s Hin Hc)
        as [(F & P & R & G)|(F & P & I & _)]; [|exact I].
      destruct (next_cases l t s) as [[E Hn]|[E [Hn | Hn]]];
        rewrite Hn in *; cbn in F; try (apply cond_true in Hc; congruence).
      unfold in_list in *. cbn. tauto.
    + now apply next_pos_ok.
Qed.

Lemma init_pos_ok (l : list Z) (t : Z) : pos_ok l t (init l).
Proof.
  unfold pos_ok, init. cbv zeta.
  destruct (Z.of_nat (length l) =? 0); cbn; auto.
Qed.

Lemma get_In (l : list Z) (i : Z) : in_range l i -> In (get l i) l.
Proof.
  unfold in_range, get. intros H. apply nth_In. lia.
Qed.

Lemma In_get (l : list Z) (t : Z) :
  In t l -> exists j, in_range l j /\ get l j = t.
Proof.
  intros H. destruct (In_nth l t 0 H) as (k & Hk & E).
  exists (Z.of_nat k). unfold in_range, get.
  rewrite Nat2Z.id. split; [lia|exact E].
Qed.

(** ** Completeness, on a list sorted around a cut *)

Lemma cut_pair (l : list Z) (c a b : Z) :
  cut_sorted l c -> 0 <= a <= b -> b < Z.of_nat (length l) ->
  (get l a <= get l b /\ (b < c \/ c <= a)) \/
  (a < c <= b /\ get l b < get l a).
Proof.
  intros (Hc & H1 & H2 & H3) Hab Hb.
  destruct (Z.lt_ge_cases b c) as [L|L].
  - left. split; [apply H1; lia|now left].
  - destruct (Z.lt_ge_cases a c) as [L'|L'].
    + right. split; [lia|apply H3; lia].
    + left. split; [apply H2; lia|now right].
Qed.

Lemma next_holds_target (l : list Z) (c t : Z) (s : state) :
  cut_sorted l c -> in_list l s -> found s = false ->
  holds_target l t s ->
  found (next l t s) = true \/ holds_target l t (next l t s).
Proof.
  intros Hcut [Hl Hu] Hf (j & Hj & Hjt).
  assert (Hle : lower s <= upper s) by lia.
  pose proof (mid_bounds _ _ Hle) as Hm.
  set (mid := (upper s + lower s) / 2) in *.
  pose proof (cut_pair l c (lower s) mid Hcut ltac:(lia) ltac:(lia)) as Plm.
  pose proof (cut_pair l c mid (upper s) Hcut ltac:(lia) ltac:(lia)) as Pmu.
  pose proof (cut_pair l c (lower s) j Hcut ltac:(lia) ltac:(lia)) as Plj.
  pose proof (cut_pair l c j (upper s) Hcut ltac:(lia) ltac:(lia)) as Pju.
  assert (Pjm : j <= mid ->
                (get l j <= get l mid /\ (mid < c \/ c <= j)) \/
                (j < c <= mid /\ get l mid < get l j))
    by (intros; apply cut_pair; auto; lia).
  assert (Pmj : mid <= j ->
                (get l mid <= get l j /\ (j < c \/ c <= mid)) \/
                (mid < c <= j /\ get l j < get l mid))
    by (intros; apply cut_pair; auto; lia).
  unfold next. fold mid.
  destruct (Z.eqb_spec (get l mid) t) as [E|E]; [now left|].
  right.
  assert (Hjm : j <> mid) by congruence.
  rewrite Z.geb_leb, !Z.gtb_ltb.
  destruct (Z.leb_spec (get l (lower s)) t);
    destruct (Z.ltb_spec t (get l mid));
    destruct (Z.ltb_spec (get l mid) t);
    destruct (Z.leb_spec t (get l (upper s)));
    destruct (Z.ltb_spec (get l mid) (get l (lower s)));
    cbn [andb]; exists j; cbn; (split; [|exact Hjt]);
    subst t; lia.
Qed.

Lemma steps_found (l : list Z) (t : Z) (fuel : nat) (s : state) :
  found s = true -> steps fuel l t s = s.
Proof.
  intros H. assert (cond s = false) as Hc by (apply cond_false; now left).
  destruct fuel; cbn; now rewrite Hc.
Qed.

Lemma steps_finds (l : list Z) (c t : Z) :
  cut_sorted l c ->
  forall (fuel : nat) (s : state),
    in_list l s -> found s = false -> width s <= Z.of_nat fuel ->
    holds_target l t s ->
    let s' := steps fuel l t s in
    found s' = true /\ in_range l (pos s') /\ get l (pos s') = t.
Proof.
  intros Hcut. induction fuel as [|fuel IH]; intros s Hin Hf Hw Hh; cbv zeta.
  - destruct Hh as (j & Hj & _). unfold width in Hw. lia.
  - assert (Hc : cond s = true).
    { apply cond_true. destruct Hh as (j & Hj & _). split; [exact Hf|lia]. }
    cbn [steps]. rewrite Hc.
    destruct (next_window l t s Hin Hc)
      as [(F & P & R & G)|(F & P & I & W & W' & _)].
    + rewrite steps_found by exact F. auto.
    + destruct (next_holds_target l c t s Hcut Hin Hf Hh) as [F'|Hh'];
        [congruence|].
      apply IH; auto. lia.
Qed.

(** ** The number of passes *)

Lemma nsteps_log2 (l : list Z) (t : Z) :
  forall (fuel : nat) (s : state),
    in_list l s -> 1 <= width s ->
    Z.of_nat (nsteps fuel l t s) <= Z.log2 (width s) + 1.
Proof.
  induction fuel as [|fuel IH]; intros s Hin Hw.
  - pose proof (Z.log2_nonneg (width s)). cbn. destruct (cond s); cbn; lia.
  - pose proof (Z.log2_nonneg (width s)) as Hlog.
    cbn [nsteps]. destruct (cond s) eqn:Hc; [|cbn; lia].
    rewrite Nat2Z.inj_succ.
    destruct (next_window l t s Hin Hc)
      as [(F & P & R & G)|(F & P & I & W & W' & _)].
    + assert (Hz : nsteps fuel l t (next l t s) = O).
      { assert (cond (next l t s) = false) as Hc'
            by (apply cond_false; now left).
        destruct fuel; cbn; now rewrite Hc'. }
      rewrite Hz. cbn. lia.
    + destruct (Z.le_gt_cases 1 (width (next l t s))) as [W1|W1].
      * specialize (IH _ I W1).
        assert (Z.log2 (width (next l t s)) <= Z.log2 (width s / 2))
          by (apply Z.log2_le_mono; exact W).
        assert (Z.log2 (width s / 2) = Z.log2 (width s) - 1).
        { rewrite <- Z.div2_div, Z.div2_spec, Z.log2_shiftr by lia.
          assert (2 <= width s) by lia.
          assert (1 <= Z.log2 (width s))
            by (apply Z.log2_le_pow2; cbn; lia).
          lia. }
        lia.
      * assert (Hz : nsteps fuel l t (next l t s) = O).
        { assert (cond (next l t s) = false) as Hc'
              by (apply cond_false; right; unfold width in W1; lia).
          destruct fuel; cbn; now rewrite Hc'. }
        rewrite Hz. cbn. lia.
Qed.

(** ** Ascending lists and their rotations *)

Lemma ascendingb_cons (a : Z) (l : list Z) :
  ascendingb (a :: l) = true ->
  ascendingb l = true /\ forall x, In x l -> a <= x.
Proof.
  revert a. induction l as [|b l IH]; intros a H.
  - split; [reflexivity|intros x []].
  - cbn [ascendingb] in H. apply andb_true_iff in H. destruct H as [Hab Hl].
    apply Z.leb_le in Hab. split; [exact Hl|].
    intros x [<-|Hx]; [exact Hab|].
    apply IH in Hl. destruct Hl as [_ Hl]. specialize (Hl x Hx). lia.
Qed.

Lemma ascendingb_nth (l : list Z) :
  ascendingb l = true ->
  forall i j : nat, (i <= j < length l)%nat -> nth i l 0 <= nth j l 0.
Proof.
  induction l as [|a l IH]; intros H i j Hij; [cbn in Hij; lia|].
  apply ascendingb_cons in H. destruct H as [Hl Ha].
  destruct j as [|j]; [replace i with O by lia; lia|].
  cbn in Hij. destruct i as [|i].
  - cbn. apply Ha, nth_In. lia.
  - cbn. apply IH; [exact Hl|lia].
Qed.

Lemma ascendingb_get (l : list Z) (i j : Z) :
  ascendingb l = true -> 0 <= i <= j -> j < Z.of_nat (length l) ->
  get l i <= get l j.
Proof.
  intros H Hij Hj. unfold get. apply ascendingb_nth; [exact H|lia].
Qed.

Lemma strictly_ascendingb_cons (a : Z) (l : list Z) :
  strictly_ascendingb (a :: l) = true ->
  strictly_ascendingb l = true /\ forall x, In x l -> a < x.
Proof.
  revert a. induction l as [|b l IH]; intros a H.
  - split; [reflexivity|intros x []].
  - cbn [strictly_ascendingb] in H. apply andb_true_iff in H.
    destruct H as [Hab Hl]. apply Z.ltb_lt in Hab. split; [exact Hl|].
    intros x [<-|Hx]; [exact Hab|].
    apply IH in Hl. destruct Hl as [_ Hl]. specialize (Hl x Hx). lia.
Qed.

Lemma strictly_ascendingb_nth (l : list Z) :
  strictly_ascendingb l = true ->
  forall i j : nat, (i < j < length l)%nat -> nth i l 0 < nth j l 0.
Proof.
  induction l as [|a l IH]; intros H i j Hij; [cbn in Hij; lia|].
  apply strictly_ascendingb_cons in H. destruct H as [Hl Ha].
  destruct j as [|j]; [lia|].
  cbn in Hij. destruct i as [|i].
  - cbn. apply Ha, nth_In. lia.
  - cbn. apply IH; [exact Hl|lia].
Qed.

Lemma strictly_ascendingb_ascendingb (l : list Z) :
  strictly_ascendingb l = true -> ascendingb l = true.
Proof.
  induction l as [|a [|b l] IH]; intros H; try reflexivity.
  cbn [strictly_ascendingb] in H. apply andb_true_iff in H.
  destruct H as [Hab Hl]. apply Z.ltb_lt in Hab.
  cbn [ascendingb]. apply andb_true_iff. split; [apply Z.leb_le; lia|auto].
Qed.

(** A strictly ascending list has no cut between two equal elements. *)
Lemma strictly_ascendingb_cut (l : list Z) (k : nat) :
  strictly_ascendingb l = true -> (k < Nat.max (length l) 1)%nat ->
  k = O \/ get l (Z.of_nat k - 1) < get l (Z.of_nat k).
Proof.
  intros H Hk. destruct k as [|k]; [now left|right].
  unfold get. apply strictly_ascendingb_nth; [exact H|lia].
Qed.

Lemma length_rotate (S : list Z) (k : nat) :
  length (rotate S k) = length S.
Proof.
  unfold rotate. rewrite length_app, length_skipn, length_firstn. lia.
Qed.

Lemma In_rotate (S : list Z) (k : nat) (x : Z) :
  In x (rotate S k) <-> In x S.
Proof.
  unfold rotate. rewrite <- (firstn_skipn k S) at 3.
  rewrite !in_app_iff. tauto.
Qed.

Lemma get_rotate_front (S : list Z) (k : nat) (i : Z) :
  0 <= i < Z.of_nat (length S) - Z.of_nat k ->
  get (rotate S k) i = get S (i + Z.of_nat k).
Proof.
  intros H. unfold get, rotate.
  rewrite app_nth1 by (rewrite length_skipn; lia).
  rewrite nth_skipn. f_equal. lia.
Qed.

Lemma get_rotate_back (S : list Z) (k : nat) (i : Z) :
  (k <= length S)%nat ->
  Z.of_nat (length S) - Z.of_nat k <= i < Z.of_nat (length S) ->
  get (rotate S k) i = get S (i - (Z.of_nat (length S) - Z.of_nat k)).
Proof.
  intros Hk H. unfold get, rotate.
  rewrite app_nth2 by (rewrite length_skipn; lia).
  rewrite length_skipn, nth_firstn.
  destruct (Nat.ltb_spec (Z.to_nat i - (length S - k)) k); [|lia].
  f_equal. lia.
Qed.

(** [rotate S k [i] = S[(i + k) mod n]]. *)
Lemma get_rotate (S : list Z) (k : nat) (i : Z) :
  (k <= length S)%nat -> in_range S i ->
  get (rotate S k) i = get S ((i + Z.of_nat k) mod Z.of_nat (length S)).
Proof.
  unfold in_range. intros Hk Hi.
  destruct (Z.lt_ge_cases i (Z.of_nat (length S) - Z.of_nat k)) as [L|L].
  - rewrite get_rotate_front by lia. f_equal.
    symmetry. apply Z.mod_small. lia.
  - rewrite get_rotate_back by lia. f_equal.
    apply Zmod_unique with (q := 1); lia.
Qed.

(** An ascending list cut where two neighbours differ is sorted around
    the cut once rotated. *)
Lemma rotate_cut_sorted (S : list Z) (k : nat) :
  ascendingb S = true -> (k <= length S)%nat ->
  (k = O \/ get S (Z.of_nat k - 1) < get S (Z.of_nat k)) ->
  cut_sorted (rotate S k) (Z.of_nat (length S) - Z.of_nat k).
Proof.
  intros Ha Hk Hcut. unfold cut_sorted. cbv zeta. rewrite length_rotate.
  split; [lia|]. split; [|split].
  - intros i j Hij Hj. rewrite !get_rotate_front by lia.
    apply ascendingb_get; [exact Ha|lia|lia].
  - intros i j Hij Hj. rewrite !get_rotate_back by lia.
    apply ascendingb_get; [exact Ha|lia|lia].
  - intros i j Hi Hj.
    rewrite (get_rotate_front S k i) by lia.
    rewrite (get_rotate_back S k j) by lia.
    destruct Hcut as [->|Hcut]; [lia|].
    assert (get S (j - (Z.of_nat (length S) - Z.of_nat k))
            <= get S (Z.of_nat k - 1))
      by (apply ascendingb_get; [exact Ha|lia|lia]).
    assert (get S (Z.of_nat k) <= get S (i + Z.of_nat k)).
    { destruct (Z.eq_dec (Z.of_nat k) (Z.of_nat (length S))) as [E|E]; [lia|].
      apply ascendingb_get; [exact Ha|lia|lia]. }
    lia.
Qed.

(** The search on a list sorted around a cut finds every target it holds. *)
Lemma circ_bs_cut_sorted (l : list Z) (c t : Z) :
  cut_sorted l c -> In t l ->
  exists j, circ_bs l t = Done j /\ j <> absent /\
            in_range l j /\ get l j = t.
Proof.
  intros Hcut Hin. rewrite circ_bs_steps.
  destruct (In_get l t Hin) as (j & Hj & Hjt). unfold in_range in Hj.
  assert (Hn : (Z.of_nat (length l) =? 0) = false) by (apply Z.eqb_neq; lia).
  assert (Hinit : init l = mkState 0 (Z.of_nat (length l) - 1) (-1) false)
    by (unfold init; cbv zeta; now rewrite Hn).
  destruct (steps_finds l c t Hcut (length l) (init l)) as (F & R & G).
  - apply init_in_list.
  - now rewrite Hinit.
  - rewrite Hinit. unfold width. cbn. lia.
  - exists j. rewrite Hinit. cbn. split; [lia|exact Hjt].
  - eexists. split; [reflexivity|]. repeat split; try apply R; auto.
    unfold absent, in_range in *. lia.
Qed.

(** On any list, a target that is not in it is not found. *)
Lemma circ_bs_result (l : list Z) (t : Z) :
  exists r, circ_bs l t = Done r /\
            (r = absent \/ (in_range l r /\ get l r = t)).
Proof.
  rewrite circ_bs_steps. eexists. split; [reflexivity|].
  apply (steps_pos_ok l t (length l) (init l)).
  - apply init_in_list.
  - apply init_pos_ok.
Qed.

Lemma circ_bs_not_In (l : list Z) (t : Z) :
  ~ In t l -> circ_bs l t = Done absent.
Proof.
  intros Hn. destruct (circ_bs_result l t) as (r & E & [->|[R G]]);
    [exact E|].
  exfalso. apply Hn. rewrite <- G. now apply get_In.
Qed.

(** ** More fuel changes nothing *)

Lemma while_S (fuel : nat) (l : list Z) (t : Z) (s : state) :
  while (S fuel) l t s =
  if cond s
  then _ <- tick ;; s' <- body l t s ;; while fuel l t s'
  else ret s.
Proof. reflexivity. Qed.

Lemma while_more_fuel (l : list Z) (t : Z) :
  forall (fuel : nat) (s : state) tr s',
    while fuel l t s = (tr, Done s') ->
    while (S fuel) l t s = (tr, Done s').
Proof.
  induction fuel as [|fuel IH]; intros s tr s' H.
  - rewrite while_S. cbn in H. destruct (cond s); [discriminate|exact H].
  - rewrite while_S in H. rewrite while_S.
    destruct (cond s); [|exact H].
    unfold tick in *. cbn [bind] in *.
    destruct (body l t s) as [tr1 [s1| |]]; cbn [bind] in *;
      try discriminate.
    destruct (while fuel l t s1) as [tr2 r2] eqn:E.
    destruct r2 as [s2| |]; try discriminate.
    rewrite (IH _ _ _ E). exact H.
Qed.

Lemma circ_bs_fuel (l : list Z) (t : Z) (fuel : nat) :
  (length l <= fuel)%nat -> circ_bs_run fuel l t = circ_bs_trace l t.
Proof.
  intros H. unfold circ_bs_trace.
  destruct (circ_bs_trace_steps l t) as (tr & E & _).
  unfold circ_bs_trace in E. rewrite E.
  induction H as [|m Hm IH]; [exact E|].
  unfold circ_bs_run in *.
  destruct (while m l t (init l)) as [tr1 [s1| |]] eqn:W;
    cbn in IH; try discriminate.
  now rewrite (while_more_fuel _ _ _ _ _ _ W).
Qed.

(** ** Invariants at the head of the loop *)

Lemma loop_head_in_list (l : list Z) (t : Z) (s : state) :
  loop_head l t s -> in_list l s /\ pos_ok l t s.
Proof.
  induction 1 as [|s tr s' Hs [IHi IHp] Hc Hb].
  - split; [apply init_in_list|apply init_pos_ok].
  - pose proof Hc as Hc'. apply cond_true in Hc'.
    destruct (body_next l t s IHi (proj2 Hc')) as (tr' & Hb' & _).
    rewrite Hb' in Hb. injection Hb as _ <-.
    split; [|now apply next_pos_ok].
    destruct (next_window l t s IHi Hc)
      as [(F & P & R & G)|(F & P & I & _)]; [|exact I].
    destruct (next_cases l t s) as [[E Hn]|[E [Hn | Hn]]];
      rewrite Hn in *; cbn in F; try congruence.
    unfold in_list in *. cbn. tauto.
Qed.

Lemma loop_head_holds_target (l : list Z) (c t : Z) (s : state) :
  cut_sorted l c -> In t l -> loop_head l t s ->
  found s = false -> holds_target l t s.
Proof.
  intros Hcut Hin. induction 1 as [|s tr s' Hs IH Hc Hb]; intros Hf.
  - destruct (In_get l t Hin) as (j & Hj & Hjt). unfold in_range in Hj.
    exists j. unfold init in *. cbv zeta in *.
    destruct (Z.of_nat (length l) =? 0); cbn in *; [discriminate|].
    split; [lia|exact Hjt].
  - pose proof Hc as Hc'. apply cond_true in Hc'. destruct Hc' as [Hfs Hle].
    destruct (loop_head_in_list l t s Hs) as [Hi _].
    destruct (body_next l t s Hi Hle) as (tr' & Hb' & _).
    rewrite Hb' in Hb. injection Hb as _ <-.
    destruct (next_holds_target l c t s Hcut Hi Hfs (IH Hfs)) as [F|H];
      [congruence|exact H].
Qed.

(** ** Plain ascending lists and standard binary search *)

Lemma ascendingb_cut_sorted (l : list Z) :
  ascendingb l = true -> cut_sorted l 0.
Proof.
  intros H. unfold cut_sorted. cbv zeta. repeat split; try lia.
  intros i j Hij Hj. now apply ascendingb_get.
Qed.

Lemma bs_next_inv (l : list Z) (t : Z) (s : state) :
  in_list l s /\ pos_ok l t s -> cond s = true ->
  in_list l (bs_next l t s) /\ pos_ok l t (bs_next l t s).
Proof.
  intros [[Hl Hu] [P1 P2]] Hc. apply cond_true in Hc. destruct Hc as [Hf Hle].
  pose proof (mid_bounds _ _ Hle) as Hm.
  unfold bs_next, in_list, pos_ok, in_range.
  destruct (Z.eqb_spec (get l ((upper s + lower s) / 2)) t) as [E|E].
  - cbn. split; [lia|]. split; [congruence|]. right. split; [lia|exact E].
  - destruct (t <? get l ((upper s + lower s) / 2)); cbn;
      (split; [lia|]); split; auto.
Qed.

Lemma bs_steps_inv (l : list Z) (t : Z) :
  forall (fuel : nat) (s : state),
    in_list l s /\ pos_ok l t s ->
    in_list l (bs_steps fuel l t s) /\ pos_ok l t (bs_steps fuel l t s).
Proof.
  induction fuel as [|fuel IH]; intros s H; cbn [bs_steps].
  - now destruct (cond s).
  - destruct (cond s) eqn:Hc; [|exact H]. apply IH. now apply bs_next_inv.
Qed.

Lemma binary_search_not_In (l : list Z) (t : Z) :
  ~ In t l -> binary_search l t = absent.
Proof.
  intros Hn. unfold binary_search.
  destruct (bs_steps_inv l t (length l) (init l)) as [_ [_ [E|[R G]]]].
  - split; [apply init_in_list|apply init_pos_ok].
  - exact E.
  - exfalso. apply Hn. rewrite <- G. now apply get_In.
Qed.

(** While the window of an ascending list holds the target, the search
    moves as standard binary search does. *)
Lemma next_bs_next (l : list Z) (t : Z) (s : state) :
  ascendingb l = true -> in_list l s -> holds_target l t s ->
  next l t s = bs_next l t s.
Proof.
  intros Ha [Hl Hu] (j & Hj & Hjt).
  assert (Hle : lower s <= upper s) by lia.
  pose proof (mid_bounds _ _ Hle) as Hm.
  unfold next, bs_next.
  set (mid := (upper s + lower s) / 2) in *.
  destruct (Z.eqb_spec (get l mid) t) as [E|E]; [reflexivity|].
  pose proof (ascendingb_get l (lower s) j Ha ltac:(lia) ltac:(lia)) as Plj.
  pose proof (ascendingb_get l j (upper s) Ha ltac:(lia) ltac:(lia)) as Pju.
  rewrite Z.geb_leb, !Z.gtb_ltb.
  destruct (Z.leb_spec (get l (lower s)) t); [|lia].
  destruct (Z.ltb_spec t (get l mid)); [reflexivity|].
  destruct (Z.ltb_spec (get l mid) t); [|lia].
  destruct (Z.leb_spec t (get l (upper s))); [reflexivity|lia].
Qed.

Lemma bs_steps_found (l : list Z) (t : Z) (fuel : nat) (s : state) :
  found s = true -> bs_steps fuel l t s = s.
Proof.
  intros H. assert (cond s = false) as Hc by (apply cond_false; now left).
  destruct fuel; cbn; now rewrite Hc.
Qed.

Lemma steps_bs_steps (l : list Z) (t : Z) :
  ascendingb l = true ->
  forall (fuel : nat) (s : state),
    in_list l s -> found s = false -> holds_target l t s ->
    steps fuel l t s = bs_steps fuel l t s.
Proof.
  intros Ha. pose proof (ascendingb_cut_sorted l Ha) as Hcut.
  induction fuel as [|fuel IH]; intros s Hin Hf Hh; [reflexivity|].
  cbn [steps bs_steps].
  destruct (cond s) eqn:Hc; [|reflexivity].
  rewrite <- (next_bs_next l t s Ha Hin Hh).
  destruct (next_window l t s Hin Hc)
    as [(F & P & R & G)|(F & P & I & _)].
  - now rewrite steps_found, bs_steps_found.
  - destruct (next_holds_target l 0 t s Hcut Hin Hf Hh) as [F'|Hh'];
      [congruence|].
    now apply IH.
Qed.

Lemma circ_bs_binary_search (l : list Z) (t : Z) :
  ascendingb l = true -> circ_bs l t = Done (binary_search l t).
Proof.
  intros Ha. destruct (in_dec Z.eq_dec t l) as [Hin|Hn].
  - rewrite circ_bs_steps. unfold binary_search. f_equal. f_equal.
    destruct (In_get l t Hin) as (j & Hj & Hjt). unfold in_range in Hj.
    assert (Hn : (Z.of_nat (length l) =? 0) = false)
      by (apply Z.eqb_neq; lia).
    assert (Hinit : init l = mkState 0 (Z.of_nat (length l) - 1) (-1) false)
      by (unfold init; cbv zeta; now rewrite Hn).
    apply steps_bs_steps; [exact Ha|apply init_in_list|now rewrite Hinit|].
    exists j. rewrite Hinit. cbn. split; [lia|exact Hjt].
  - now rewrite circ_bs_not_In, binary_search_not_In.
Qed.

(** ** The properties of the specification *)

(** C1 (amended).  For every ascending list [S] (equal neighbours
    allowed), every rotation amount [k < max(len(S), 1)] whose cut does not
    fall between two equal elements ([k = 0] or [S[k-1] < S[k]], which
    every cut of a strictly ascending list satisfies), and every index [i]
    of [S], [circ_bs] on [rotate S k] with target [S[i]] returns an index
    [j] that is not [-1], with [rotate S k [j] = S[i]]. *)
Theorem circ_bs_rotate_finds (S : list Z) (k : nat) (i : Z) :
  ascendingb S = true ->
  (k < Nat.max (length S) 1)%nat ->
  (k = O \/ get S (Z.of_nat k - 1) < get S (Z.of_nat k)) ->
  in_range S i ->
  exists j, circ_bs (rotate S k) (get S i) = Done j /\ j <> absent /\
            in_range (rotate S k) j /\ get (rotate S k) j = get S i.
Proof.
  intros Ha Hk Hcut Hi.
  assert (Hk' : (k <= length S)%nat) by lia.
  apply (circ_bs_cut_sorted _ _ _ (rotate_cut_sorted S k Ha Hk' Hcut)).
  apply In_rotate. now apply get_In.
Qed.

Lemma circ_bs_rotate_finds_witness :
  exists j, circ_bs (rotate [1; 1; 2; 2; 3] 2) (get [1; 1; 2; 2; 3] 3) = Done j
            /\ j <> absent
            /\ in_range (rotate [1; 1; 2; 2; 3] 2) j
            /\ get (rotate [1; 1; 2; 2; 3] 2) j = get [1; 1; 2; 2; 3] 3.
Proof.
  apply (circ_bs_rotate_finds [1; 1; 2; 2; 3] 2 3).
  - reflexivity.
  - cbn. lia.
  - right. vm_compute. reflexivity.
  - unfold in_range. cbn. lia.
Defined.

(** C1 as stated fails when the cut separates equal elements:
    [[0,1,1,1,1]] rotated by 4 is [[1,0,1,1,1]], and the search for
    [S[0] = 0] in it returns [-1]. *)
Lemma circ_bs_rotate_misses :
  ascendingb [0; 1; 1; 1; 1] = true /\
  (4 < Nat.max (length [0; 1; 1; 1; 1]) 1)%nat /\
  in_range [0; 1; 1; 1; 1] 0 /\
  rotate [0; 1; 1; 1; 1] 4 = [1; 0; 1; 1; 1] /\
  circ_bs (rotate [0; 1; 1; 1; 1] 4) (get [0; 1; 1; 1; 1] 0) = Done absent.
Proof.
  repeat split; try reflexivity; cbn; lia.
Qed.

(** Every rotation of a strictly ascending list is searched rightly. *)
Lemma circ_bs_rotate_strict (S : list Z) (k : nat) (t : Z) :
  strictly_ascendingb S = true -> (k < Nat.max (length S) 1)%nat ->
  In t S ->
  exists j, circ_bs (rotate S k) t = Done j /\ j <> absent /\
            in_range (rotate S k) j /\ get (rotate S k) j = t.
Proof.
  intros Hs Hk Hin.
  assert (Hk' : (k <= length S)%nat) by lia.
  apply (circ_bs_cut_sorted (rotate S k)
           (Z.of_nat (length S) - Z.of_nat k)).
  - apply rotate_cut_sorted; auto.
    + now apply strictly_ascendingb_ascendingb.
    + now apply strictly_ascendingb_cut.
  - now apply In_rotate.
Qed.

(** C2.  For a rotation of a strictly ascending list, a target equal to
    none of its elements makes [circ_bs] return [-1]. *)
Theorem circ_bs_absent (S : list Z) (k : nat) (t : Z) :
  strictly_ascendingb S = true ->
  (k < Nat.max (length S) 1)%nat ->
  ~ In t (rotate S k) ->
  circ_bs (rotate S k) t = Done absent.
Proof.
  intros _ _ Hn. now apply circ_bs_not_In.
Qed.

Lemma circ_bs_absent_witness :
  circ_bs (rotate [1; 2; 3; 4; 5; 6; 7; 8] 5) 9 = Done absent.
Proof.
  apply (circ_bs_absent [1; 2; 3; 4; 5; 6; 7; 8] 5 9).
  - reflexivity.
  - cbn. lia.
  - cbn. intros H. repeat (destruct H as [H|H]; [lia|]). exact H.
Defined.

(** C3.  On every list and for every target, [circ_bs] returns (it
    neither raises nor runs out of fuel, whatever the fuel from
    [len(list)] up), every index it reads is in [[0, n)], and its result is
    [-1] or an index of the list.  Every pass through the loop body, from
    any state the loop can be in, ends normally and either sets [found] or
    leaves a strictly smaller window, still inside the list. *)
Theorem circ_bs_total (l : list Z) (t : Z) :
  (exists tr r,
      circ_bs_trace l t = (tr, Done r) /\
      (forall fuel, (length l <= fuel)%nat ->
                    circ_bs_run fuel l t = (tr, Done r)) /\
      Forall (in_range l) (reads tr) /\
      (r = absent \/ in_range l r)) /\
  (forall s, loop_head l t s -> cond s = true ->
     exists tr s',
       body l t s = (tr, Done s') /\
       Forall (in_range l) (reads tr) /\
       (found s' = true \/
        (in_list l s' /\ width s' < width s))).
Proof.
  split.
  - destruct (circ_bs_trace_steps l t) as (tr & E & Hr & _).
    exists tr. eexists. split; [exact E|]. split; [|split; [exact Hr|]].
    + intros fuel Hf. now rewrite circ_bs_fuel.
    + destruct (steps_pos_ok l t (length l) (init l)
                  (init_in_list l) (init_pos_ok l t)) as [_ [P|[P _]]];
        auto.
  - intros s Hs Hc.
    destruct (loop_head_in_list l t s Hs) as [Hin _].
    pose proof Hc as Hc'. apply cond_true in Hc'.
    destruct (body_next l t s Hin (proj2 Hc')) as (tr & Hb & Hr & _).
    exists tr, (next l t s). split; [exact Hb|]. split; [exact Hr|].
    destruct (next_window l t s Hin Hc)
      as [(F & _)|(F & P & I & W & W' & _)]; [now left|right; auto].
Qed.

(** C4 (amended).  For every rotation of an ascending list whose cut does
    not fall between two equal elements ([k = 0] or [S[k-1] < S[k]]; every
    rotation of a strictly ascending list is one) and every target in it,
    at the start of every iteration of the loop some index [j] in
    [[lower, upper]] has [list[j] == target]. *)
Theorem loop_window_holds_target (S : list Z) (k : nat) (t : Z) (s : state) :
  ascendingb S = true ->
  (k <= length S)%nat ->
  (k = O \/ get S (Z.of_nat k - 1) < get S (Z.of_nat k)) ->
  In t (rotate S k) ->
  loop_head (rotate S k) t s -> cond s = true ->
  exists j, lower s <= j <= upper s /\
            in_range (rotate S k) j /\ get (rotate S k) j = t.
Proof.
  intros Ha Hk Hcut Hin Hs Hc.
  apply cond_true in Hc. destruct Hc as [Hf Hle].
  destruct (loop_head_holds_target _ _ t s
              (rotate_cut_sorted S k Ha Hk Hcut) Hin Hs Hf) as (j & Hj & E).
  destruct (loop_head_in_list _ t s Hs) as [[Hl Hu] _].
  exists j. unfold in_range. split; [lia|]. split; [lia|exact E].
Qed.

Lemma loop_window_holds_target_witness :
  exists j, 4 <= j <= 7 /\
            in_range (rotate [1; 2; 3; 4; 5; 6; 7; 8] 5) j /\
            get (rotate [1; 2; 3; 4; 5; 6; 7; 8] 5) j = 5.
Proof.
  apply (loop_window_holds_target [1; 2; 3; 4; 5; 6; 7; 8] 5 5
           (mkState 4 7 (-1) false)).
  - reflexivity.
  - cbn. lia.
  - right. vm_compute. reflexivity.
  - cbn. tauto.
  - eapply head_body; [apply head_init|reflexivity|].
    vm_compute. reflexivity.
  - reflexivity.
Defined.

(** C4 as stated fails when the cut separates equal elements: in
    [[5,5,1,5,5,5,5]], which is [[1,5,5,5,5,5,5]] rotated by 5, the second
    iteration of the search for 1 starts with the window [[4, 6]], which
    holds no 1. *)
Lemma loop_window_loses_target :
  ascendingb [1; 5; 5; 5; 5; 5; 5] = true /\
  rotate [1; 5; 5; 5; 5; 5; 5] 5 = [5; 5; 1; 5; 5; 5; 5] /\
  In 1 (rotate [1; 5; 5; 5; 5; 5; 5] 5) /\
  loop_head (rotate [1; 5; 5; 5; 5; 5; 5] 5) 1 (mkState 4 6 (-1) false) /\
  cond (mkState 4 6 (-1) false) = true /\
  ~ (exists j, 4 <= j <= 6 /\ get (rotate [1; 5; 5; 5; 5; 5; 5] 5) j = 1).
Proof.
  split; [reflexivity|]. split; [reflexivity|]. split; [cbn; tauto|].
  split; [|split; [reflexivity|]].
  - eapply head_body; [apply head_init|reflexivity|].
    vm_compute. reflexivity.
  - intros (j & Hj & E).
    assert (Hc : j = 4 \/ j = 5 \/ j = 6) by lia.
    destruct Hc as [->|[->| ->]]; vm_compute in E; discriminate.
Qed.

(** C5 (amended).  For every rotation of an ascending list, equal elements
    allowed, whose cut does not fall between two equal elements ([k = 0] or
    [S[k-1] < S[k]]), and every target equal to at least one element,
    [circ_bs] returns some index [i] with [list[i] == target]. *)
Theorem circ_bs_finds_some_index (S : list Z) (k : nat) (t : Z) :
  ascendingb S = true ->
  (k <= length S)%nat ->
  (k = O \/ get S (Z.of_nat k - 1) < get S (Z.of_nat k)) ->
  In t (rotate S k) ->
  exists i, circ_bs (rotate S k) t = Done i /\
            in_range (rotate S k) i /\ get (rotate S k) i = t.
Proof.
  intros Ha Hk Hcut Hin.
  destruct (circ_bs_cut_sorted _ _ t (rotate_cut_sorted S k Ha Hk Hcut) Hin)
    as (j & E & _ & R & G).
  exists j. auto.
Qed.

Lemma circ_bs_finds_some_index_witness :
  exists i, circ_bs (rotate [2; 2; 4; 4; 4; 7; 7] 5) 4 = Done i /\
            in_range (rotate [2; 2; 4; 4; 4; 7; 7] 5) i /\
            get (rotate [2; 2; 4; 4; 4; 7; 7] 5) i = 4.
Proof.
  apply (circ_bs_finds_some_index [2; 2; 4; 4; 4; 7; 7] 5 4).
  - reflexivity.
  - cbn. lia.
  - right. vm_compute. reflexivity.
  - cbn. tauto.
Defined.

(** C5 as stated fails: [[2,1,2,2,2]] is the ascending [[1,2,2,2,2]]
    rotated by 4 and holds 1, and the search for 1 returns [-1]. *)
Lemma circ_bs_misses_among_duplicates :
  ascendingb [1; 2; 2; 2; 2] = true /\
  rotate [1; 2; 2; 2; 2] 4 = [2; 1; 2; 2; 2] /\
  In 1 (rotate [1; 2; 2; 2; 2] 4) /\
  circ_bs (rotate [1; 2; 2; 2; 2] 4) 1 = Done absent.
Proof.
  split; [reflexivity|]. split; [reflexivity|]. split; [cbn; tauto|].
  reflexivity.
Qed.

(** C6.  On a plain ascending list (no rotation, equal elements allowed)
    [circ_bs] returns what standard binary search returns: for a target
    equal to some element an index of such an element, for a target equal
    to none [-1]. *)
Theorem circ_bs_plain_ascending (l : list Z) (t : Z) :
  ascendingb l = true ->
  rotate l 0 = l /\
  circ_bs l t = Done (binary_search l t) /\
  (In t l ->
   exists j, circ_bs l t = Done j /\ j <> absent /\
             in_range l j /\ get l j = t) /\
  (~ In t l -> circ_bs l t = Done absent).
Proof.
  intros Ha. split; [|split; [|split]].
  - unfold rotate. cbn. apply app_nil_r.
  - now apply circ_bs_binary_search.
  - apply circ_bs_cut_sorted with (c := 0). now apply ascendingb_cut_sorted.
  - apply circ_bs_not_In.
Qed.

Lemma circ_bs_plain_ascending_witness :
  circ_bs [1; 3; 3; 5; 8] 5 = Done (binary_search [1; 3; 3; 5; 8] 5) /\
  binary_search [1; 3; 3; 5; 8] 5 = 3 /\
  circ_bs [1; 3; 3; 5; 8] 4 = Done absent.
Proof.
  destruct (circ_bs_plain_ascending [1; 3; 3; 5; 8] 5) as (_ & E & _).
  - reflexivity.
  - split; [exact E|]. split; reflexivity.
Defined.

(** C7.  The search of the empty list returns [-1] at once, having gone
    through the loop no time and read (hence compared) no element; the
    search of [[x]] for [x] returns 0, and for any [y <> x] returns [-1]. *)
Theorem circ_bs_degenerate (t x y : Z) :
  circ_bs_trace [] t = ([], Done absent) /\
  circ_bs [x] x = Done 0 /\
  (y <> x -> circ_bs [x] y = Done absent).
Proof.
  split; [reflexivity|]. split.
  - unfold circ_bs, circ_bs_trace, circ_bs_run. cbn.
    now rewrite Z.eqb_refl.
  - intros Hy. apply circ_bs_not_In. intros [H|[]]. congruence.
Qed.

Lemma circ_bs_degenerate_witness :
  circ_bs_trace [] 1 = ([], Done absent) /\
  circ_bs [1] 1 = Done 0 /\
  circ_bs [1] 2 = Done absent.
Proof.
  destruct (circ_bs_degenerate 1 1 2) as (H1 & H2 & H3).
  split; [exact H1|]. split; [exact H2|]. apply H3. lia.
Defined.

(** C8.  On [[6,7,8,1,2,3,4,5]] (that is [[1..8]] rotated by 5) the search
    returns 3 for 1, 2 for 8 and 7 for 5; on the 1000 elements
    [[800..999] + [0..799]] (the script's [list[-200:] + list[0:800]]) it
    returns 200 for 0. *)
Theorem circ_bs_scenarios :
  rotate [1; 2; 3; 4; 5; 6; 7; 8] 5 = [6; 7; 8; 1; 2; 3; 4; 5] /\
  circ_bs [6; 7; 8; 1; 2; 3; 4; 5] 1 = Done 3 /\
  circ_bs [6; 7; 8; 1; 2; 3; 4; 5] 8 = Done 2 /\
  circ_bs [6; 7; 8; 1; 2; 3; 4; 5] 5 = Done 7 /\
  rotate (range 0 1000) 800 = range 800 200 ++ range 0 800 /\
  circ_bs (range 800 200 ++ range 0 800) 0 = Done 200.
Proof.
  repeat split; vm_compute; reflexivity.
Qed.

(** C9.  On every list of [n >= 1] elements and for every target, the
    search goes through its loop at most [ceil(log2(n)) + 1] times. *)
Theorem circ_bs_iterations (l : list Z) (t : Z) :
  (1 <= length l)%nat ->
  exists tr r,
    circ_bs_trace l t = (tr, Done r) /\
    Z.of_nat (iterations tr) <= Z.log2_up (Z.of_nat (length l)) + 1.
Proof.
  intros Hn. destruct (circ_bs_trace_steps l t) as (tr & E & _ & Hi & _).
  exists tr. eexists. split; [exact E|]. rewrite Hi.
  assert (Hz : (Z.of_nat (length l) =? 0) = false) by (apply Z.eqb_neq; lia).
  assert (Hw : width (init l) = Z.of_nat (length l)).
  { unfold init, width. cbv zeta. rewrite Hz. cbn. lia. }
  pose proof (nsteps_log2 l t (length l) (init l) (init_in_list l)) as H.
  rewrite Hw in H.
  pose proof (Z.le_log2_log2_up (Z.of_nat (length l))).
  lia.
Qed.

Lemma circ_bs_iterations_witness :
  exists tr r,
    circ_bs_trace [6; 7; 8; 1; 2; 3; 4; 5] 5 = (tr, Done r) /\
    Z.of_nat (iterations tr)
    <= Z.log2_up (Z.of_nat (length [6; 7; 8; 1; 2; 3; 4; 5])) + 1.
Proof.
  apply (circ_bs_iterations [6; 7; 8; 1; 2; 3; 4; 5] 5). cbn. lia.
Defined.

(** C10.  On every list, sorted or not, and for every target, [circ_bs]
    returns; a result other than [-1] is an index [i] in [[0, n)] with
    [list[i] == target]; and when the target equals no element the result
    is [-1]. *)
Theorem circ_bs_sound (l : list Z) (t : Z) :
  exists r,
    circ_bs l t = Done r /\
    (r <> absent -> in_range l r /\ get l r = t) /\
    (~ In t l -> r = absent).
Proof.
  destruct (circ_bs_result l t) as (r & E & Hr).
  exists r. split; [exact E|]. split.
  - intros Hne. destruct Hr as [->|Hr]; [congruence|exact Hr].
  - intros Hn. destruct Hr as [->|[R G]]; [reflexivity|].
    exfalso. apply Hn. rewrite <- G. now apply get_In.
Qed.

Lemma circ_bs_sound_witness :
  exists r,
    circ_bs [4; 9; 1; 7; 3] 7 = Done r /\
    (r <> absent -> in_range [4; 9; 1; 7; 3] r /\ get [4; 9; 1; 7; 3] r = 7) /\
    (~ In 7 [4; 9; 1; 7; 3] -> r = absent).
Proof.
  exact (circ_bs_sound [4; 9; 1; 7; 3] 7).
Defined.

(** ** Further properties of [circ_bs] *)

Lemma strictly_ascendingb_get_inj (S : list Z) (a b : Z) :
  strictly_ascendingb S = true -> in_range S a -> in_range S b ->
  get S a = get S b -> a = b.
Proof.
  unfold in_range, get. intros Hs Ha Hb E.
  destruct (Z.lt_trichotomy a b) as [L|[L|L]]; [|exact L|].
  - pose proof (strictly_ascendingb_nth S Hs (Z.to_nat a) (Z.to_nat b)
                  ltac:(lia)). lia.
  - pose proof (strictly_ascendingb_nth S Hs (Z.to_nat b) (Z.to_nat a)
                  ltac:(lia)). lia.
Qed.

Lemma rotate_get_inj (S : list Z) (k : nat) (a b : Z) :
  strictly_ascendingb S = true -> (k <= length S)%nat ->
  in_range S a -> in_range S b ->
  get (rotate S k) a = get (rotate S k) b -> a = b.
Proof.
  unfold in_range. intros Hs Hk Ha Hb.
  destruct (Z.lt_ge_cases a (Z.of_nat (length S) - Z.of_nat k));
    destruct (Z.lt_ge_cases b (Z.of_nat (length S) - Z.of_nat k));
    rewrite ?(get_rotate_front S k a), ?(get_rotate_back S k a),
      ?(get_rotate_front S k b), ?(get_rotate_back S k b) by lia;
    intros E; apply strictly_ascendingb_get_inj in E; auto;
    unfold in_range; lia.
Qed.

(** Looking up the element at an index of a rotated strictly ascending
    list gives that index back. *)
Theorem circ_bs_get_index (S : list Z) (k : nat) (j : Z) :
  strictly_ascendingb S = true ->
  (k < Nat.max (length S) 1)%nat ->
  in_range (rotate S k) j ->
  circ_bs (rotate S k) (get (rotate S k) j) = Done j.
Proof.
  intros Hs Hk Hj.
  destruct (circ_bs_rotate_strict S k (get (rotate S k) j) Hs Hk)
    as (j' & E & _ & R & G).
  - apply (In_rotate S k). now apply get_In.
  - rewrite E. f_equal.
    unfold in_range in *. rewrite length_rotate in *.
    apply (rotate_get_inj S k); auto; unfold in_range; lia.
Qed.

Lemma circ_bs_get_index_witness :
  circ_bs (rotate [1; 2; 3; 4; 5; 6; 7; 8] 5)
          (get (rotate [1; 2; 3; 4; 5; 6; 7; 8] 5) 6) = Done 6.
Proof.
  apply (circ_bs_get_index [1; 2; 3; 4; 5; 6; 7; 8] 5 6).
  - reflexivity.
  - cbn. lia.
  - unfold in_range. cbn. lia.
Defined.

(** The search of a strictly ascending list rotated by [k] for [S[i]]
    returns where the rotation put it, [(i - k) mod n]. *)
Theorem circ_bs_rotate_index (S : list Z) (k : nat) (i : Z) :
  strictly_ascendingb S = true ->
  (k < Nat.max (length S) 1)%nat ->
  in_range S i ->
  circ_bs (rotate S k) (get S i)
  = Done ((i - Z.of_nat k) mod Z.of_nat (length S)).
Proof.
  intros Hs Hk Hi. unfold in_range in Hi.
  set (n := Z.of_nat (length S)) in *.
  assert (Hj : 0 <= (i - Z.of_nat k) mod n < n)
    by (apply Z.mod_pos_bound; lia).
  assert (E : get (rotate S k) ((i - Z.of_nat k) mod n) = get S i).
  { rewrite get_rotate by (unfold in_range; fold n; lia).
    fold n. rewrite Zplus_mod_idemp_l.
    replace (i - Z.of_nat k + Z.of_nat k) with i by lia.
    now rewrite Z.mod_small by lia. }
  rewrite <- E. apply circ_bs_get_index; auto.
  unfold in_range. rewrite length_rotate. exact Hj.
Qed.

Lemma circ_bs_rotate_index_witness :
  circ_bs (rotate [1; 2; 3; 4; 5; 6; 7; 8] 5) (get [1; 2; 3; 4; 5; 6; 7; 8] 0)
  = Done ((0 - Z.of_nat 5) mod Z.of_nat (length [1; 2; 3; 4; 5; 6; 7; 8])).
Proof.
  apply (circ_bs_rotate_index [1; 2; 3; 4; 5; 6; 7; 8] 5 0).
  - reflexivity.
  - cbn. lia.
  - unfold in_range. cbn. lia.
Defined.

(** *** Reads *)

Lemma body_reads (l : list Z) (t : Z) (s : state) :
  in_list l s -> lower s <= upper s ->
  (1 <= length (reads (fst (body l t s))) <= 7)%nat.
Proof.
  intros [Hl Hu] Hle.
  pose proof (mid_bounds _ _ Hle) as Hm.
  assert (Rm : in_range l ((upper s + lower s) / 2)) by (unfold in_range; lia).
  assert (Rl : in_range l (lower s)) by (unfold in_range; lia).
  assert (Ru : in_range l (upper s)) by (unfold in_range; lia).
  unfold body, and_.
  rewrite (getitem_in _ _ Rm), (getitem_in _ _ Rl), (getitem_in _ _ Ru).
  cbn [bind ret app].
  destruct (get l ((upper s + lower s) / 2) =? t); [cbn; lia|].
  destruct (t >=? get l (lower s)); cbn [bind ret app andb];
    destruct (t <? get l ((upper s + lower s) / 2)); cbn [bind ret app andb];
    try (cbn; lia);
    destruct (t >? get l ((upper s + lower s) / 2)); cbn [bind ret app andb];
    try destruct (t <=? get l (upper s)); cbn [bind ret app andb];
    try (cbn; lia);
    destruct (get l (lower s) >? get l ((upper s + lower s) / 2));
    cbn; lia.
Qed.

Lemma next_in_list (l : list Z) (t : Z) (s : state) :
  in_list l s -> cond s = true -> in_list l (next l t s).
Proof.
  intros Hin Hc.
  destruct (next_window l t s Hin Hc)
    as [(F & P & R & G)|(F & P & I & _)]; [|exact I].
  destruct (next_cases l t s) as [[E Hn]|[E [Hn | Hn]]];
    rewrite Hn in *; cbn in F; try congruence.
  unfold in_list in *. cbn. tauto.
Qed.

Lemma while_reads (l : list Z) (t : Z) :
  forall (fuel : nat) (s : state),
    in_list l s ->
    (length (reads (fst (while fuel l t s)))
     <= 7 * iterations (fst (while fuel l t s)))%nat.
Proof.
  induction fuel as [|fuel IH]; intros s Hin.
  - cbn. destruct (cond s); cbn; lia.
  - rewrite while_S. destruct (cond s) eqn:Hc; [|cbn; lia].
    pose proof Hc as Hc'. apply cond_true in Hc'. destruct Hc' as [_ Hle].
    pose proof (body_reads l t s Hin Hle) as Hb.
    destruct (body_next l t s Hin Hle) as (tr1 & E & _ & Hi).
    rewrite E in Hb. cbn [fst] in Hb.
    specialize (IH _ (next_in_list l t s Hin Hc)).
    unfold tick. cbn [bind]. rewrite E. cbn [bind].
    destruct (while fuel l t (next l t s)) as [tr2 r2]. cbn [fst] in *.
    change (Iter :: tr1 ++ tr2) with ([Iter] ++ tr1 ++ tr2).
    rewrite !reads_app, !iterations_app, !length_app, Hi. cbn. lia.
Qed.

(** A run reads at most seven elements in each pass through the loop,
    hence at most [7 * (ceil(log2(n)) + 1)] elements of a list of
    [n >= 1]. *)
Theorem circ_bs_reads (l : list Z) (t : Z) :
  (1 <= length l)%nat ->
  exists tr r,
    circ_bs_trace l t = (tr, Done r) /\
    (length (reads tr) <= 7 * iterations tr)%nat /\
    Z.of_nat (length (reads tr))
    <= 7 * (Z.log2_up (Z.of_nat (length l)) + 1).
Proof.
  intros Hn. destruct (circ_bs_trace_steps l t) as (tr & E & _ & Hi & _).
  exists tr. eexists. split; [exact E|].
  assert (Hr : (length (reads tr) <= 7 * iterations tr)%nat).
  { pose proof (while_reads l t (length l) (init l) (init_in_list l)) as H.
    unfold circ_bs_trace, circ_bs_run in E.
    destruct (while (length l) l t (init l)) as [tr1 [s1| |]];
      cbn in E; try discriminate.
    injection E as E _. rewrite app_nil_r in E. subst tr1. exact H. }
  split; [exact Hr|].
  assert (Hz : (Z.of_nat (length l) =? 0) = false) by (apply Z.eqb_neq; lia).
  assert (Hw : width (init l) = Z.of_nat (length l)).
  { unfold init, width. cbv zeta. rewrite Hz. cbn. lia. }
  pose proof (nsteps_log2 l t (length l) (init l) (init_in_list l)) as H.
  rewrite Hw, <- Hi in H.
  pose proof (Z.le_log2_log2_up (Z.of_nat (length l))).
  lia.
Qed.

Lemma circ_bs_reads_witness :
  exists tr r,
    circ_bs_trace [6; 7; 8; 1; 2; 3; 4; 5] 9 = (tr, Done r) /\
    (length (reads tr) <= 7 * iterations tr)%nat /\
    Z.of_nat (length (reads tr))
    <= 7 * (Z.log2_up (Z.of_nat (length [6; 7; 8; 1; 2; 3; 4; 5])) + 1).
Proof.
  apply (circ_bs_reads [6; 7; 8; 1; 2; 3; 4; 5] 9). cbn. lia.
Defined.

(** *** The window at the head of the loop *)

(** On any list, at the head of the loop the window is inside the list
    and never shorter than empty ([0 <= lower <= upper + 1 <= n]); [pos]
    is [-1] while [found] is false, and once it is true on a list that is
    not empty, [pos] is an index of the target inside the window. *)
Theorem loop_head_window (l : list Z) (t : Z) (s : state) :
  loop_head l t s ->
  0 <= lower s <= upper s + 1 /\ upper s < Z.of_nat (length l) /\
  (found s = false -> pos s = -1) /\
  (found s = true ->
   l = [] \/ (lower s <= pos s <= upper s /\ get l (pos s) = t)).
Proof.
  induction 1 as [|s tr s' Hs IH Hc Hb].
  - unfold init. cbv zeta.
    destruct (Z.eqb_spec (Z.of_nat (length l)) 0) as [E|E]; cbn.
    + split; [lia|]. split; [lia|]. split; [discriminate|].
      intros _. left. destruct l; [reflexivity|cbn in E; lia].
    + split; [lia|]. split; [lia|]. split; [reflexivity|discriminate].
  - destruct IH as (Hl & Hu & Hp & _).
    pose proof Hc as Hc'. apply cond_true in Hc'. destruct Hc' as [Hf Hle].
    assert (Hin : in_list l s) by (unfold in_list; lia).
    destruct (body_next l t s Hin Hle) as (tr' & Hb' & _).
    rewrite Hb' in Hb. injection Hb as _ <-.
    pose proof (mid_bounds _ _ Hle) as Hm.
    specialize (Hp Hf).
    destruct (next_cases l t s) as [[E ->]|[E [-> | ->]]]; cbn.
    + split; [lia|]. split; [lia|]. split; [discriminate|].
      intros _. right. split; [lia|exact E].
    + split; [lia|]. split; [lia|]. split; [auto|congruence].
    + split; [lia|]. split; [lia|]. split; [auto|congruence].
Qed.

Lemma loop_head_window_witness :
  0 <= lower (mkState 4 6 (-1) false) <= upper (mkState 4 6 (-1) false) + 1 /\
  upper (mkState 4 6 (-1) false) < Z.of_nat (length [5; 5; 1; 5; 5; 5; 5]).
Proof.
  destruct (loop_head_window [5; 5; 1; 5; 5; 5; 5] 1 (mkState 4 6 (-1) false))
    as (H1 & H2 & _).
  - eapply head_body; [apply head_init|reflexivity|].
    vm_compute. reflexivity.
  - split; [exact H1|exact H2].
Defined.

(** ** [print_list] *)

Lemma py_slice_prefix (l : list Z) (m : Z) :
  0 <= m -> py_slice l (Some 0) (Some m) = firstn (Z.to_nat m) l.
Proof.
  intros Hm. unfold py_slice, clamp. cbv zeta.
  destruct (Z.ltb_spec 0 0); [lia|].
  destruct (Z.ltb_spec m 0); [lia|].
  rewrite (Z.min_l 0) by lia. cbn [Z.to_nat skipn]. rewrite Z.sub_0_r.
  destruct (Z.le_ge_cases m (Z.of_nat (length l))) as [L|L].
  - now rewrite Z.min_l by lia.
  - rewrite Z.min_r by lia. rewrite Nat2Z.id.
    rewrite !firstn_all2; auto; lia.
Qed.

Lemma py_slice_suffix (l : list Z) (m : Z) :
  0 < m -> py_slice l (Some (- m)) None = skipn (length l - Z.to_nat m) l.
Proof.
  intros Hm. unfold py_slice, clamp. cbv zeta.
  destruct (Z.ltb_spec (- m) 0); [|lia].
  replace (Z.to_nat (Z.max (- m + Z.of_nat (length l)) 0))
    with (length l - Z.to_nat m)%nat by lia.
  apply firstn_all2. rewrite length_skipn. lia.
Qed.

(** A list of at most ten elements is printed whole, twice. *)
Theorem print_list_short (T : Type) (l : list Z) (name : String.string) :
  (length l <= 10)%nat ->
  @print_list T l name
  = ([Text name; ShowList l; Text "... stuff in between ..."%string;
      ShowList l], Finished tt).
Proof.
  intros Hn. unfold print_list.
  rewrite py_slice_prefix by lia.
  change (-10) with (Z.opp 10). rewrite (py_slice_suffix l 10) by lia.
  rewrite firstn_all2 by (cbn; lia).
  replace (length l - Z.to_nat 10)%nat with O by lia.
  reflexivity.
Qed.

Lemma print_list_short_witness :
  @print_list unit [3; 1; 2] "x"%string
  = ([Text "x"%string; ShowList [3; 1; 2];
      Text "... stuff in between ..."%string; ShowList [3; 1; 2]],
     Finished tt).
Proof.
  apply (print_list_short unit [3; 1; 2] "x"%string). cbn. lia.
Defined.

(** Of a list of twenty elements or more the first ten and the last ten
    are printed, and the [n - 20] between them are not. *)
Theorem print_list_long (T : Type) (l : list Z) (name : String.string) :
  (20 <= length l)%nat ->
  exists hd hidden tl,
    l = hd ++ hidden ++ tl /\
    length hd = 10%nat /\ length tl = 10%nat /\
    length hidden = (length l - 20)%nat /\
    @print_list T l name
    = ([Text name; ShowList hd; Text "... stuff in between ..."%string;
        ShowList tl], Finished tt).
Proof.
  intros Hn.
  exists (firstn 10 l), (firstn (length l - 20) (skipn 10 l)),
    (skipn (length l - 10) l).
  split; [|split; [|split; [|split]]].
  - rewrite <- (firstn_skipn 10 l) at 1. f_equal.
    rewrite <- (firstn_skipn (length l - 20) (skipn 10 l)) at 1. f_equal.
    rewrite skipn_skipn. f_equal. lia.
  - apply firstn_length_le. lia.
  - rewrite length_skipn. lia.
  - rewrite length_firstn, length_skipn. lia.
  - unfold print_list.
    rewrite py_slice_prefix by lia.
    change (-10) with (Z.opp 10). rewrite (py_slice_suffix l 10) by lia.
    reflexivity.
Qed.

Lemma print_list_long_witness :
  exists hd hidden tl,
    range 0 25 = hd ++ hidden ++ tl /\
    length hd = 10%nat /\ length tl = 10%nat /\
    length hidden = (length (range 0 25) - 20)%nat /\
    @print_list unit (range 0 25) "x"%string
    = ([Text "x"%string; ShowList hd;
        Text "... stuff in between ..."%string; ShowList tl], Finished tt).
Proof.
  apply (print_list_long unit (range 0 25) "x"%string). cbn. lia.
Defined.

(** ** The circular list of the script *)

Lemma circular_1000 (l : list Z) :
  length l = 1000%nat -> circular l = rotate l 800.
Proof.
  intros Hn. unfold circular, rotate.
  change (-200) with (Z.opp 200).
  rewrite (py_slice_suffix l 200) by lia.
  rewrite py_slice_prefix by lia.
  rewrite Hn. reflexivity.
Qed.

(** On a list of 1000 elements, [list[-200:] + list[0:800]] is the list
    rotated by 800: as long, with the same elements, and with
    [list[(i + 800) mod 1000]] at index [i]. *)
Theorem circular_rotate (l : list Z) :
  length l = 1000%nat ->
  circular l = rotate l 800 /\
  length (circular l) = 1000%nat /\
  Permutation l (circular l) /\
  (forall i, 0 <= i < 1000 ->
             get (circular l) i = get l ((i + 800) mod 1000)).
Proof.
  intros Hn. pose proof (circular_1000 l Hn) as E.
  rewrite E. split; [reflexivity|]. split; [|split].
  - now rewrite length_rotate.
  - unfold rotate. rewrite <- (firstn_skipn 800 l) at 1.
    apply Permutation_app_comm.
  - intros i Hi. rewrite get_rotate by (unfold in_range; lia).
    rewrite Hn. reflexivity.
Qed.

Lemma circular_rotate_witness :
  circular (range 0 1000) = rotate (range 0 1000) 800 /\
  length (circular (range 0 1000)) = 1000%nat.
Proof.
  destruct (circular_rotate (range 0 1000)) as (H1 & H2 & _).
  - reflexivity.
  - split; [exact H1|exact H2].
Defined.

(** ** [manage_search] *)

Lemma search_each_find (T : Type) (list : list Z) :
  forall rest : Datatypes.list Z,
    @search_each T list rest
    = (match find (missed list) rest with
       | Some each => [NotFoundLine each]
       | None => []
       end, Finished tt).
Proof.
  induction rest as [|each rest IH]; [reflexivity|].
  cbn [search_each find]. unfold missed at 1.
  destruct (circ_bs_result list each) as (r & E & _). rewrite E.
  cbn [call obind]. destruct (r =? -1); [reflexivity|].
  rewrite IH. now destruct (find (missed list) rest).
Qed.

Lemma find_split (f : Z -> bool) (l : list Z) (x : Z) :
  find f l = Some x ->
  exists pre post, l = pre ++ x :: post /\ f x = true /\
                   forall y, In y pre -> f y = false.
Proof.
  induction l as [|a l IH]; [discriminate|]. cbn [find].
  destruct (f a) eqn:Fa.
  - intros [= ->]. exists [], l. repeat split; auto. intros y [].
  - intros H. destruct (IH H) as (pre & post & -> & Fx & Hpre).
    exists (a :: pre), post. repeat split; auto.
    intros y [<-|Hy]; auto.
Qed.

Lemma missed_true (list : list Z) (each : Z) :
  missed list each = true <-> circ_bs list each = Done absent.
Proof.
  unfold missed, absent. destruct (circ_bs_result list each) as (r & E & _).
  rewrite E. split.
  - intros H. apply Z.eqb_eq in H. now subst.
  - intros [= ->]. reflexivity.
Qed.

Lemma missed_false (list : list Z) (each : Z) :
  missed list each = false <-> circ_bs list each <> Done absent.
Proof.
  rewrite <- missed_true. destruct (missed list each); split;
    congruence.
Qed.

(** When every element is found, [manage_search] prints its four lines
    and no [NOT FOUND]. *)
Lemma manage_search_all_found (T : Type) (sub : T -> T -> T) (start end_ : T)
  (list : list Z) :
  (forall each, In each list -> circ_bs list each <> Done absent) ->
  manage_search sub start end_ list
  = ([Text "Beginning search for all values in the list..."%string;
      Text "Done!"%string;
      FoundLine (Z.of_nat (length list)) (sub end_ start);
      Blank], Finished tt).
Proof.
  intros H. unfold manage_search. rewrite search_each_find.
  destruct (find (missed list) list) as [x|] eqn:F; [|reflexivity].
  apply find_some in F. destruct F as [Hin Hm].
  apply missed_true in Hm. now apply H in Hin.
Qed.

Lemma manage_search_cut_sorted (T : Type) (sub : T -> T -> T)
  (start end_ : T) (list : list Z) (c : Z) :
  cut_sorted list c ->
  manage_search sub start end_ list
  = ([Text "Beginning search for all values in the list..."%string;
      Text "Done!"%string;
      FoundLine (Z.of_nat (length list)) (sub end_ start);
      Blank], Finished tt).
Proof.
  intros Hcut. apply manage_search_all_found. intros each Hin.
  destruct (circ_bs_cut_sorted _ _ each Hcut Hin) as (j & E & Hj & _).
  rewrite E. congruence.
Qed.

(** On a rotation of an ascending list whose cut does not fall between
    two equal elements, so on every rotation of a strictly ascending list,
    [manage_search] ends normally having printed no [NOT FOUND] line. *)
Theorem manage_search_rotated (T : Type) (sub : T -> T -> T) (start end_ : T)
  (S : list Z) (k : nat) :
  ascendingb S = true ->
  (k <= length S)%nat ->
  (k = O \/ get S (Z.of_nat k - 1) < get S (Z.of_nat k)) ->
  manage_search sub start end_ (rotate S k)
  = ([Text "Beginning search for all values in the list..."%string;
      Text "Done!"%string;
      FoundLine (Z.of_nat (length S)) (sub end_ start);
      Blank], Finished tt).
Proof.
  intros Ha Hk Hcut. rewrite <- (length_rotate S k).
  exact (manage_search_cut_sorted T sub start end_ _ _
           (rotate_cut_sorted S k Ha Hk Hcut)).
Qed.

Lemma manage_search_rotated_witness :
  manage_search Z.sub 10 12 (rotate [1; 1; 2; 2; 3] 2)
  = ([Text "Beginning search for all values in the list..."%string;
      Text "Done!"%string;
      FoundLine (Z.of_nat (length [1; 1; 2; 2; 3])) (12 - 10);
      Blank], Finished tt).
Proof.
  apply (manage_search_rotated Z Z.sub 10 12 [1; 1; 2; 2; 3] 2).
  - reflexivity.
  - cbn. lia.
  - right. vm_compute. reflexivity.
Defined.

(** On any list [manage_search] ends normally.  Either [circ_bs] finds
    every element and the four lines are printed; or one [NOT FOUND] line
    is printed, for the first element of the list that [circ_bs] misses,
    no later element is searched for, and the last lines still report
    [len(list)] values as found. *)
Theorem manage_search_output (T : Type) (sub : T -> T -> T) (start end_ : T)
  (list : list Z) :
  ((forall each, In each list -> circ_bs list each <> Done absent) /\
   manage_search sub start end_ list
   = ([Text "Beginning search for all values in the list..."%string;
       Text "Done!"%string;
       FoundLine (Z.of_nat (length list)) (sub end_ start);
       Blank], Finished tt))
  \/
  (exists pre each post,
      list = pre ++ each :: post /\
      (forall y, In y pre -> circ_bs list y <> Done absent) /\
      circ_bs list each = Done absent /\
      manage_search sub start end_ list
      = ([Text "Beginning search for all values in the list..."%string;
          NotFoundLine each;
          Text "Done!"%string;
          FoundLine (Z.of_nat (length list)) (sub end_ start);
          Blank], Finished tt)).
Proof.
  destruct (find (missed list) list) as [x|] eqn:F.
  - right. destruct (find_split _ _ _ F) as (pre & post & E & Hx & Hpre).
    exists pre, x, post. split; [exact E|]. split; [|split].
    + intros y Hy. apply missed_false. now apply Hpre.
    + now apply missed_true.
    + unfold manage_search. rewrite search_each_find, F. reflexivity.
  - left.
    assert (H : forall each, In each list -> circ_bs list each <> Done absent).
    { intros each Hin. apply missed_false.
      exact (find_none _ _ F each Hin). }
    split; [exact H|]. now apply manage_search_all_found.
Qed.

(** ** The tests at the end of the script *)

(** In a list of integers that are not negative no negative value is
    found: every line of the last test reads [each -> -1]. *)
Theorem report_each_negative (T : Type) (list nots : list Z) :
  Forall (fun x => 0 <= x) list ->
  Forall (fun each => each < 0) nots ->
  @report_each T list nots
  = (map (fun each => ArrowLine each (-1)) nots, Finished tt).
Proof.
  intros Hl. induction 1 as [|each nots Hneg Hn IH]; [reflexivity|].
  cbn [report_each map]. rewrite circ_bs_not_In.
  - cbn [call obind print]. rewrite IH. reflexivity.
  - intros Hin. rewrite Forall_forall in Hl. apply Hl in Hin. lia.
Qed.

Lemma report_each_negative_witness :
  @report_each unit [3; 0; 1; 2] [-1; -2]
  = (map (fun each => ArrowLine each (-1)) [-1; -2], Finished tt).
Proof.
  apply (report_each_negative unit [3; 0; 1; 2] [-1; -2]).
  - repeat constructor; lia.
  - repeat constructor; lia.
Defined.

(** ** The script as a whole *)

Lemma strictly_ascendingb_range (n : nat) :
  forall lo, strictly_ascendingb (range lo n) = true.
Proof.
  induction n as [|n IH]; intros lo; [reflexivity|].
  cbn [range]. specialize (IH (lo + 1)).
  destruct n as [|n]; [reflexivity|].
  cbn [range strictly_ascendingb] in *.
  rewrite IH. destruct (Z.ltb_spec lo (lo + 1)); [reflexivity|lia].
Qed.

Lemma length_range (n : nat) : forall lo, length (range lo n) = n.
Proof.
  induction n as [|n IH]; intros lo; cbn; [reflexivity|now rewrite IH].
Qed.

Lemma obind_value {T A B} (a : A) (f : A -> Out T B) :
  obind (value (Some a)) f = f a.
Proof. cbn. now destruct (f a). Qed.

(** The script runs to its end without raising; neither search prints a
    [NOT FOUND] line, each reports 1000 values; the search of [[1]] for 1
    prints 0, that of [[]] prints [-1], and each of [-1 .. -9] is reported
    as [-1]. *)
Theorem main_output (T : Type) (sub : T -> T -> T) (t1 t2 t3 t4 : T) :
  main sub t1 t2 t3 t4
  = ([Text "Normal list:"%string;
      ShowList [0; 1; 2; 3; 4; 5; 6; 7; 8; 9];
      Text "... stuff in between ..."%string;
      ShowList [990; 991; 992; 993; 994; 995; 996; 997; 998; 999];
      Text "Beginning search for all values in the list..."%string;
      Text "Done!"%string; FoundLine 1000 (sub t2 t1); Blank;
      Text "Circular list:"%string;
      ShowList [800; 801; 802; 803; 804; 805; 806; 807; 808; 809];
      Text "... stuff in between ..."%string;
      ShowList [790; 791; 792; 793; 794; 795; 796; 797; 798; 799];
      Text "Beginning search for all values in the list..."%string;
      Text "Done!"%string; FoundLine 1000 (sub t4 t3); Blank;
      Text "Test for len 1 list..."%string; ShowInt 0;
      Text "Test for len 0 list..."%string; ShowInt (-1);
      Text "Test for values that aren't in the list..."%string;
      ArrowLine (-1) (-1); ArrowLine (-2) (-1); ArrowLine (-3) (-1);
      ArrowLine (-4) (-1); ArrowLine (-5) (-1); ArrowLine (-6) (-1);
      ArrowLine (-7) (-1); ArrowLine (-8) (-1); ArrowLine (-9) (-1)],
     Finished tt).
Proof.
  assert (F1 : py_range 0 1000 1 = Some (range 0 1000))
    by (vm_compute; reflexivity).
  pose proof (strictly_ascendingb_ascendingb _
                (strictly_ascendingb_range 1000 0)) as Ha.
  pose proof (length_range 1000 0) as Hlen.
  assert (F3 : manage_search sub t1 t2 (range 0 1000)
               = ([Text "Beginning search for all values in the list..."%string;
                   Text "Done!"%string; FoundLine 1000 (sub t2 t1); Blank],
                  Finished tt)).
  { rewrite (manage_search_cut_sorted T sub t1 t2 _ 0
               (ascendingb_cut_sorted _ Ha)).
    now rewrite Hlen. }
  assert (F6 : manage_search sub t3 t4 (circular (range 0 1000))
               = ([Text "Beginning search for all values in the list..."%string;
                   Text "Done!"%string; FoundLine 1000 (sub t4 t3); Blank],
                  Finished tt)).
  { rewrite (circular_1000 _ Hlen).
    rewrite (manage_search_cut_sorted T sub t3 t4 _ _
               (rotate_cut_sorted (range 0 1000) 800 Ha
                  ltac:(rewrite Hlen; lia)
                  ltac:(right; vm_compute; reflexivity))).
    now rewrite length_rotate, Hlen. }
  unfold main. rewrite F1, obind_value. cbv beta zeta.
  rewrite F3, F6.
  vm_compute. reflexivity.
Qed.
